(** * h3cker frontend: PrivateRoute and the Dashboard data pipeline

    A shallow embedding of [frontend/src/Routes/PrivateRoute/Privateroute.jsx]
    (the [PrivateRoute] gate and the [Dashboard] component with its
    [fetchDashboardData] effect) together with the properties its
    specification states about them.

    Conventions of the embedding:
    - a JavaScript value that may be [undefined] or [null] is an [option];
    - numbers that count things (views, likes, lengths, time values in
      milliseconds) are [Z];
    - strings are [string]; [toLowerCase] is modelled on ASCII letters, which
      is how it acts on e-mail addresses written in ASCII;
    - [Date] parsing is left to the engine by ECMAScript outside one format,
      so the pipeline is parametric in the parser ([Section Pipeline]) and an
      instance for the ISO format is given in [Module ISO];
    - React state is a record, a [setX] call is a [Write], and the body of an
      async function is a computation in a small writer monad with
      completions (normal, [return], [throw]). *)

From Stdlib Require Import ZArith List String Ascii Bool Lia.
From Stdlib Require Import Permutation Sorted.
Import ListNotations.

Local Open Scope string_scope.
Local Open Scope list_scope.
Local Open Scope Z_scope.

(** ** JavaScript primitives used by the components *)

Module Js.

(** [String.prototype.toLowerCase] on one ASCII character. *)
Definition lower_ascii (c : ascii) : ascii :=
  let n := nat_of_ascii c in
  if (Nat.leb 65 n && Nat.leb n 90)%bool then ascii_of_nat (n + 32) else c.

(** [s.toLowerCase()] *)
Fixpoint toLowerCase (s : string) : string :=
  match s with
  | EmptyString => EmptyString
  | String c s' => String (lower_ascii c) (toLowerCase s')
  end.

(** Truthiness of a possibly missing string: [undefined], [null] and the
    empty string are falsy. *)
Definition truthy_str (s : option string) : bool :=
  match s with
  | None => false
  | Some EmptyString => false
  | Some (String _ _) => true
  end.

(** [x || 0] for a possibly missing number: [undefined], [null] and [0]
    are falsy. *)
Definition or_zero (x : option Z) : Z :=
  match x with
  | Some n => if n =? 0 then 0 else n
  | None => 0
  end.

(** [a?.toLowerCase() === b.toLowerCase()]: optional chaining yields
    [undefined] for a missing receiver, and [undefined] is strictly equal
    to no string. *)
Definition opt_lower_eq (a : option string) (b : string) : bool :=
  match a with
  | None => false
  | Some s => String.eqb (toLowerCase s) (toLowerCase b)
  end.

(** The value a comparator returns: a number, or [NaN] as [None]. *)
Definition number := option Z.

(** [x - y] on numbers; [NaN] is absorbing. *)
Definition sub (x y : number) : number :=
  match x, y with
  | Some a, Some b => Some (a - b)
  | _, _ => None
  end.

Section Sort.
Context {A : Type}.
Variable comparefn : A -> A -> number.

(** SortCompare of ECMA-262: a [NaN] from the comparator counts as [+0];
    [x] stays in front of [y] when the result is not positive. *)
Definition keeps_before (x y : A) : bool :=
  match comparefn x y with
  | Some v => v <=? 0
  | None => true
  end.

Fixpoint insert (x : A) (l : list A) : list A :=
  match l with
  | [] => [x]
  | y :: l' => if keeps_before x y then x :: l else y :: insert x l'
  end.

(** [Array.prototype.sort(comparefn)], which ECMAScript requires to be
    stable: insertion of each element in front of the sorted rest keeps
    elements that compare equal in their original order.  It is applied
    to a copy ([[...userVideos]]), so it is a function on lists. *)
Fixpoint sort (l : list A) : list A :=
  match l with
  | [] => []
  | x :: l' => insert x (sort l')
  end.
End Sort.

(** [arr.slice(0, n)] *)
Definition slice0 {A : Type} (n : nat) (l : list A) : list A := firstn n l.

(** [arr.reduce((sum, v) => sum + f v, 0)] *)
Definition reduce_sum {A : Type} (f : A -> Z) (l : list A) : Z :=
  fold_left (fun sum v => sum + f v) l 0.

End Js.

(** ** Data model *)

(** The nested [uploader] object of a video record. *)
Record Uploader := mkUploader { email : option string }.

(** A video record of the feed.  Every field may be missing; [id] stands for
    the string-or-number identifier. *)
Record Video := mkVideo {
  id : option Z;
  title : option string;
  thumbnail_url : option string;
  duration : option string;
  views : option Z;
  likes : option Z;
  upload_date : option string;
  uploader_email : option string;
  uploader : option Uploader
}.

(** The user object of the auth provider. *)
Record User := mkUser {
  user_email : option string;
  displayName : option string
}.

(** [AuthContext]: [{user, loading}], [user] being [null] when nobody is
    signed in. *)
Record AuthContext := mkAuth {
  user : option User;
  loading : bool
}.

(** The [stats] state of [Dashboard]. *)
Record Stats := mkStats {
  totalVideos : Z;
  totalViews : Z;
  totalLikes : Z;
  storageUsed : Z;
  recentVideos : list Video;
  popularVideos : list Video
}.

(** The object literal [{totalVideos: 0, totalViews: 0, totalLikes: 0,
    storageUsed: 0, recentVideos: [], popularVideos: []}], which the source
    writes out as the initial state and in its three reset branches. *)
Definition emptyStats : Stats :=
  {| totalVideos := 0; totalViews := 0; totalLikes := 0;
     storageUsed := 0; recentVideos := []; popularVideos := [] |}.

(** What [VideoService.getVideoFeed()] may resolve with: an array of video
    records, or some value that is not an array. *)
Inductive Response :=
| RArray (videos : list Video)
| RUndefined
| RNull
| RString (s : string)
| RNumber (n : Z)
| RObject (keys : list string).

(** [Array.isArray(r)] *)
Definition Array_isArray (r : Response) : bool :=
  match r with
  | RArray _ => true
  | _ => false
  end.

(** The error a rejection carries; [message] may be missing or empty. *)
Record JsError := mkError { message : option string }.

(** The two ways the promise of [getVideoFeed] settles. *)
Inductive Outcome :=
| Resolved (r : Response)
| Rejected (e : JsError).

(** ** React state of [Dashboard] and writes to it *)

Record DashState := mkDash {
  st_loading : bool;
  st_error : option string;
  st_stats : Stats
}.

(** [useState(true)], [useState(null)], [useState({...})] *)
Definition initialState : DashState :=
  {| st_loading := true; st_error := None; st_stats := emptyStats |}.

Inductive Write :=
| SetLoading (b : bool)
| SetError (e : option string)
| SetStats (s : Stats).

Definition apply_write (st : DashState) (w : Write) : DashState :=
  match w with
  | SetLoading b => {| st_loading := b; st_error := st_error st; st_stats := st_stats st |}
  | SetError e => {| st_loading := st_loading st; st_error := e; st_stats := st_stats st |}
  | SetStats s => {| st_loading := st_loading st; st_error := st_error st; st_stats := s |}
  end.

Definition apply_writes (st : DashState) (ws : list Write) : DashState :=
  fold_left apply_write ws st.

(** ** Handler computations: state writes and completions *)

Module Handler.

(** How a block of statements completes. *)
Inductive completion (A : Type) :=
| Normal (a : A)
| Return
| Throw (e : JsError).
Arguments Normal {A} a.
Arguments Return {A}.
Arguments Throw {A} e.

(** A block performs its writes in order and then completes. *)
Definition t (A : Type) : Type := (list Write * completion A)%type.

Definition ret {A} (a : A) : t A := ([], Normal a).

Definition bind {A B} (m : t A) (k : A -> t B) : t B :=
  match m with
  | (ws, Normal a) => let (ws', c) := k a in (ws ++ ws', c)
  | (ws, Return) => (ws, Return)
  | (ws, Throw e) => (ws, Throw e)
  end.

Definition write (w : Write) : t unit := ([w], Normal tt).

(** [return;] *)
Definition return_ {A} : t A := ([], Return).

(** [try { body } catch (e) { handler e }] *)
Definition try_catch {A} (body : t A) (handler : JsError -> t A) : t A :=
  match body with
  | (ws, Throw e) => let (ws', c) := handler e in (ws ++ ws', c)
  | done => done
  end.

(** [... finally { fin }]: [fin] runs whatever the completion, which it
    replaces only when it completes abruptly itself. *)
Definition finally {A} (body : t A) (fin : t unit) : t A :=
  let (ws, c) := body in
  match fin with
  | (ws', Normal _) => (ws ++ ws', c)
  | (ws', Return) => (ws ++ ws', Return)
  | (ws', Throw e) => (ws ++ ws', Throw e)
  end.

(** [await p] once [p] has settled. *)
Definition await (o : Outcome) : t Response :=
  match o with
  | Resolved r => ret r
  | Rejected e => ([], Throw e)
  end.

Definition writes {A} (m : t A) : list Write := fst m.

End Handler.

Declare Scope handler_scope.
Delimit Scope handler_scope with handler.
Notation "x <- m ;; k" := (Handler.bind m (fun x => k))
  (at level 61, m at next level, right associativity) : handler_scope.
Notation "m ;; k" := (Handler.bind m (fun _ => k))
  (at level 61, right associativity) : handler_scope.

Definition setLoading (b : bool) : Handler.t unit := Handler.write (SetLoading b).
Definition setError (e : option string) : Handler.t unit := Handler.write (SetError e).
Definition setStats (s : Stats) : Handler.t unit := Handler.write (SetStats s).

(** ** [Dashboard]: the data pipeline of [fetchDashboardData] *)

(** The fallback text of the [catch] block. *)
Definition fallbackMessage : string :=
  "Failed to load video data. Please try again later.".

(** [fetchError.message || '...']: a missing or empty message is falsy. *)
Definition errorMessage (fetchError : JsError) : string :=
  match message fetchError with
  | Some (String c m) => String c m
  | _ => fallbackMessage
  end.

(** [video.uploader?.email] *)
Definition uploader_email_nested (video : Video) : option string :=
  match uploader video with
  | Some u => email u
  | None => None
  end.

(** The predicate handed to [allVideos.filter]:
    [video.uploader_email?.toLowerCase() === user.email.toLowerCase() ||
     video.uploader?.email?.toLowerCase() === user.email.toLowerCase()] *)
Definition isUserVideo (userEmail : string) (video : Video) : bool :=
  Js.opt_lower_eq (uploader_email video) userEmail
  || Js.opt_lower_eq (uploader_email_nested video) userEmail.

(** [const userVideos = allVideos.filter(...)] *)
Definition userVideos (userEmail : string) (allVideos : list Video) : list Video :=
  filter (isUserVideo userEmail) allVideos.

(** [(a, b) => (b.views || 0) - (a.views || 0)] *)
Definition byViews (a b : Video) : Js.number :=
  Some (Js.or_zero (views b) - Js.or_zero (views a)).

(** [[...userVideos].sort((a, b) => (b.views || 0) - (a.views || 0))] *)
Definition sortedByViews (vs : list Video) : list Video := Js.sort byViews vs.

Section Pipeline.

(** [Date.parse]: the time value in milliseconds of a date string, [NaN]
    ([None]) for a string the engine does not accept. *)
Variable Date_parse : string -> Js.number.

(** The time value of [new Date(d || 0)]: a missing or empty date is falsy
    and gives [new Date(0)], the epoch. *)
Definition Date_time (d : option string) : Js.number :=
  match d with
  | Some (String c s) => Date_parse (String c s)
  | _ => Some 0
  end.

(** [(a, b) => new Date(b.upload_date || 0) - new Date(a.upload_date || 0)] *)
Definition byDate (a b : Video) : Js.number :=
  Js.sub (Date_time (upload_date b)) (Date_time (upload_date a)).

(** [[...userVideos].sort(byDate)] *)
Definition sortedByDate (vs : list Video) : list Video := Js.sort byDate vs.

(** The [try] block from the [await] on.  [isMounted] is the closure variable
    as it stands when the promise settles; the whole block then runs without
    interruption, so it is read once. *)
Definition fetch_try (isMounted : bool) (userEmail : string) (o : Outcome)
  : Handler.t unit :=
  (allVideos <- Handler.await o ;;
   if negb isMounted then Handler.return_
   else
     match allVideos with
     | RArray videos =>
         let userVideos := userVideos userEmail videos in
         if 0 <? Z.of_nat (List.length userVideos) then
           let sortedByDate := sortedByDate userVideos in
           let sortedByViews := sortedByViews userVideos in
           setStats
             {| totalVideos := Z.of_nat (List.length userVideos);
                totalViews := Js.reduce_sum (fun v => Js.or_zero (views v)) userVideos;
                totalLikes := Js.reduce_sum (fun v => Js.or_zero (likes v)) userVideos;
                storageUsed := 25;
                recentVideos := Js.slice0 3 sortedByDate;
                popularVideos := Js.slice0 2 sortedByViews |}
         else
           setStats emptyStats
     | _ =>
         setStats emptyStats ;;
         setLoading false ;;
         Handler.return_
     end)%handler.

(** The [catch] block. *)
Definition fetch_catch (isMounted : bool) (fetchError : JsError) : Handler.t unit :=
  (if isMounted then
     setError (Some (errorMessage fetchError)) ;;
     setStats emptyStats
   else Handler.ret tt)%handler.

(** The [finally] block. *)
Definition fetch_finally (isMounted : bool) : Handler.t unit :=
  if isMounted then setLoading false else Handler.ret tt.

(** [fetchDashboardData] up to the [await]: runs when the effect runs. *)
Definition fetchDashboardData_start : Handler.t unit :=
  (setLoading true ;; setError None)%handler.

(** [fetchDashboardData] from the [await] on: runs when the promise settles. *)
Definition fetchDashboardData_resume (isMounted : bool) (userEmail : string)
  (o : Outcome) : Handler.t unit :=
  Handler.finally
    (Handler.try_catch (fetch_try isMounted userEmail o) (fetch_catch isMounted))
    (fetch_finally isMounted).

(** *** One run of the effect *)

(** The closure of one effect run: the e-mail it captured, its [isMounted]
    variable, and whether its fetch is still in flight. *)
Record Effect := mkEffect {
  ef_email : string;
  isMounted : bool;
  pending : bool
}.

(** The component during one effect run: its state, every write made so far
    (oldest first), and the effect's closure if a fetch was started. *)
Record Component := mkComponent {
  state : DashState;
  log : list Write;
  effect : option Effect
}.

Definition perform (c : Component) (ws : list Write) (e : option Effect) : Component :=
  {| state := apply_writes (state c) ws; log := log c ++ ws; effect := e |}.

(** [user?.email] *)
Definition user_email_opt (u : option User) : option string :=
  match u with
  | Some u => user_email u
  | None => None
  end.

(** The component right after an effect run that started a fetch for
    [userEmail]: [let isMounted = true], then [fetchDashboardData()] up to
    its [await]. *)
Definition started (st : DashState) (userEmail : string) : Component :=
  perform {| state := st; log := []; effect := None |}
    (Handler.writes fetchDashboardData_start)
    (Some {| ef_email := userEmail; isMounted := true; pending := true |}).

(** The body of [useEffect]: no fetch unless on the main dashboard with a
    known e-mail ([setLoading(false); return]). *)
Definition useEffect_body (isMainDashboard : bool) (u : option User)
  (st : DashState) : Component :=
  let idle :=
    perform {| state := st; log := []; effect := None |}
      (Handler.writes (setLoading false)) None in
  if negb isMainDashboard || negb (Js.truthy_str (user_email_opt u)) then idle
  else
    match user_email_opt u with
    | Some userEmail => started st userEmail
    | None => idle
    end.

(** What [Dashboard] returns. *)
Inductive View :=
| VSpinner
| VAlert (msg : string)
| VHome (u : option User) (stats : Stats)
| VOutlet.

Definition Dashboard_render (isMainDashboard : bool) (u : option User)
  (st : DashState) : View :=
  if isMainDashboard then
    if st_loading st then VSpinner
    else
      match st_error st with
      | Some (String c m) => VAlert (String c m)
      | _ => VHome u (st_stats st)
      end
  else VOutlet.

(** What can happen to a running effect: React calls its cleanup (unmount or
    changed dependencies), the feed promise settles, or the user clicks the
    dismiss button of the alert. *)
Inductive Event :=
| Cleanup
| Settle (o : Outcome)
| Dismiss.

Definition step (c : Component) (ev : Event) : Component :=
  match effect c with
  | None => c
  | Some e =>
      match ev with
      | Cleanup =>
          perform c [] (Some {| ef_email := ef_email e; isMounted := false; pending := pending e |})
      | Settle o =>
          if pending e then
            perform c
              (Handler.writes (fetchDashboardData_resume (isMounted e) (ef_email e) o))
              (Some {| ef_email := ef_email e; isMounted := isMounted e; pending := false |})
          else c
      | Dismiss =>
          (* the alert with [onDismiss={() => setError(null)}] is on screen
             only while the component shows the main dashboard *)
          if isMounted e then
            match Dashboard_render true None (state c) with
            | VAlert _ => perform c (Handler.writes (setError None)) (Some e)
            | _ => c
            end
          else c
      end
  end.

Definition run (c : Component) (evs : list Event) : Component :=
  fold_left step evs c.

(** The effect is still mounted and its fetch still in flight. *)
Definition mounted_pending (c : Component) : bool :=
  match effect c with
  | Some e => isMounted e && pending e
  | None => false
  end.

(** The effect's closure can no longer write: there is none, or its
    [isMounted] is [false]. *)
Definition quiet (c : Component) : Prop :=
  match effect c with
  | None => True
  | Some e => isMounted e = false
  end.

End Pipeline.

(** ** [PrivateRoute] *)

Module PrivateRoute.

Section Render.

(** The router's location objects and the renderable [children]. *)
Variables (Location Node : Type).

(** What the component returns: the spinner, [<Navigate to=... state={{from}}
    replace />], or its children. *)
Inductive Element :=
| Spinner
| Navigate (to : string) (from : Location) (replace : bool)
| Children (children : Node).

(** The body of the component after its hooks: [authChecked] is the state
    variable as this render reads it. *)
Definition render (ctx : AuthContext) (location : Location)
  (authChecked : bool) (children : Node) : Element :=
  if loading ctx && negb authChecked then Spinner
  else
    match user ctx with
    | None => Navigate "/login" location true
    | Some _ => Children children
    end.

(** The hooks of one mounted instance: the [authChecked] state and the
    dependency [[loading]] the effect last ran with ([None] before the first
    commit). *)
Record Hooks := mkHooks {
  authChecked : bool;
  lastDeps : option bool
}.

(** [useState(false)], no effect run yet. *)
Definition mount : Hooks := {| authChecked := false; lastDeps := None |}.

(** After a render is committed React runs the effect if [loading] differs
    from the dependency of the previous run:
    [if (!loading) setAuthChecked(true)]. *)
Definition commit (h : Hooks) (ctx : AuthContext) : Hooks :=
  let depsChanged :=
    match lastDeps h with
    | None => true
    | Some d => negb (Bool.eqb d (loading ctx))
    end in
  {| authChecked :=
       if depsChanged && negb (loading ctx) then true else authChecked h;
     lastDeps := Some (loading ctx) |}.

(** The hooks after the renders of [history] (oldest first) were committed. *)
Definition hooks_after (history : list AuthContext) : Hooks :=
  fold_left commit history mount.

(** What the instance renders for [ctx] after the renders of [history]. *)
Definition render_after (history : list AuthContext) (ctx : AuthContext)
  (location : Location) (children : Node) : Element :=
  render ctx location (authChecked (hooks_after history)) children.

End Render.

Arguments Spinner {Location Node}.
Arguments Navigate {Location Node} to from replace.
Arguments Children {Location Node} children.
Arguments render {Location Node} ctx location authChecked children.
Arguments render_after {Location Node} history ctx location children.

(** Auth has settled once the provider has reported [loading = false], in
    this render or in an earlier one of the instance. *)
Definition settled (history : list AuthContext) (ctx : AuthContext) : bool :=
  existsb (fun c => negb (loading c)) (history ++ [ctx]).

End PrivateRoute.

(** ** The date-time string format of ECMAScript, UTC forms *)

Module ISO.

Definition digit (c : ascii) : option Z :=
  let n := nat_of_ascii c in
  if (Nat.leb 48 n && Nat.leb n 57)%bool then Some (Z.of_nat n - 48) else None.

(** Reads exactly [n] decimal digits. *)
Fixpoint digits (n : nat) (acc : Z) (s : string) : option (Z * string) :=
  match n with
  | O => Some (acc, s)
  | S n' =>
      match s with
      | String c s' =>
          match digit c with
          | Some d => digits n' (10 * acc + d) s'
          | None => None
          end
      | EmptyString => None
      end
  end.

Definition expect (c : ascii) (s : string) : option string :=
  match s with
  | String c' s' => if Ascii.eqb c c' then Some s' else None
  | EmptyString => None
  end.

(** DaysInYear, DayFromYear of ECMA-262. *)
Definition DaysInYear (y : Z) : Z :=
  if negb (y mod 4 =? 0) then 365
  else if negb (y mod 100 =? 0) then 366
  else if negb (y mod 400 =? 0) then 365
  else 366.

Definition DayFromYear (y : Z) : Z :=
  365 * (y - 1970) + (y - 1969) / 4 - (y - 1901) / 100 + (y - 1601) / 400.

Definition DaysInMonth (y m : Z) : Z :=
  if m =? 2 then (if DaysInYear y =? 366 then 29 else 28)
  else if (m =? 4) || (m =? 6) || (m =? 9) || (m =? 11) then 30
  else 31.

(** Days of the year before the first of month [m] (1 to 12). *)
Definition daysBeforeMonth (y m : Z) : Z :=
  fold_left (fun acc k => acc + DaysInMonth y (Z.of_nat k))
    (seq 1 (Z.to_nat (m - 1))) 0.

(** MakeDay, MakeTime, MakeDate of ECMA-262 for in-range fields. *)
Definition MakeDay (y m d : Z) : Z := DayFromYear y + daysBeforeMonth y m + d - 1.
Definition MakeTime (h mi s ms : Z) : Z := h * 3600000 + mi * 60000 + s * 1000 + ms.
Definition MakeDate (day time : Z) : Z := day * 86400000 + time.

Definition in_range (lo x hi : Z) : bool := (lo <=? x) && (x <=? hi).

(** [YYYY-MM-DD] and what follows it. *)
Definition parse_date (s : string) : option (Z * string) :=
  match digits 4 0 s with
  | Some (y, s1) =>
      match expect "-" s1 with
      | Some s2 =>
          match digits 2 0 s2 with
          | Some (m, s3) =>
              match expect "-" s3 with
              | Some s4 =>
                  match digits 2 0 s4 with
                  | Some (d, s5) =>
                      if in_range 1 m 12 && in_range 1 d (DaysInMonth y m)
                      then Some (MakeDay y m d, s5) else None
                  | None => None
                  end
              | None => None
              end
          | None => None
          end
      | None => None
      end
  | None => None
  end.

(** [THH:mm:ss] or [THH:mm:ss.sss], followed by [Z]. *)
Definition parse_time (s : string) : option Z :=
  match expect "T" s with
  | Some s1 =>
      match digits 2 0 s1 with
      | Some (h, s2) =>
          match expect ":" s2 with
          | Some s3 =>
              match digits 2 0 s3 with
              | Some (mi, s4) =>
                  match expect ":" s4 with
                  | Some s5 =>
                      match digits 2 0 s5 with
                      | Some (sec, s6) =>
                          if in_range 0 h 23 && in_range 0 mi 59 && in_range 0 sec 59 then
                            match s6 with
                            | "Z" => Some (MakeTime h mi sec 0)
                            | String "." s7 =>
                                match digits 3 0 s7 with
                                | Some (ms, "Z") => Some (MakeTime h mi sec ms)
                                | _ => None
                                end
                            | _ => None
                            end
                          else None
                      | None => None
                      end
                  | None => None
                  end
              | None => None
              end
          | None => None
          end
      | None => None
      end
  | None => None
  end.

(** [Date.parse] on the date-only form (UTC midnight) and on the date-time
    forms with the [Z] offset; [NaN] for anything else. *)
Definition Date_parse (s : string) : Js.number :=
  match parse_date s with
  | Some (day, EmptyString) => Some (MakeDate day 0)
  | Some (day, rest) =>
      match parse_time rest with
      | Some t => Some (MakeDate day t)
      | None => None
      end
  | None => None
  end.

End ISO.

(** ** The specification's vocabulary *)

Module Spec.

(** Two strings match case-insensitively: same length, and character by
    character the same letter up to case. *)
Fixpoint eq_ignore_case (a b : string) : bool :=
  match a, b with
  | EmptyString, EmptyString => true
  | String c a', String d b' =>
      Ascii.eqb (Js.lower_ascii c) (Js.lower_ascii d) && eq_ignore_case a' b'
  | _, _ => false
  end.

(** The uploader e-mails a record carries: the top-level [uploader_email]
    and the one of the nested [uploader], whichever are present. *)
Definition uploader_emails (v : Video) : list string :=
  (match uploader_email v with Some s => [s] | None => [] end)
  ++ (match uploader v with
      | Some u => match email u with Some s => [s] | None => [] end
      | None => []
      end).

(** The record's uploader e-mail matches the user's. *)
Definition matches (userEmail : string) (v : Video) : bool :=
  existsb (fun s => eq_ignore_case s userEmail) (uploader_emails v).

(** The value of a numeric field, a missing one counting as 0. *)
Definition field (x : option Z) : Z :=
  match x with
  | Some n => n
  | None => 0
  end.

(** The sum of a list of numbers. *)
Definition sum (l : list Z) : Z := fold_right Z.add 0 l.

(** The Unix epoch as a time value. *)
Definition epoch : Z := 0.

Section Dates.
Variable Date_parse : string -> Js.number.

(** The upload time of a record, a missing (absent or empty) date counting
    as the epoch; [None] when the date string is not a date. *)
Definition upload_time (v : Video) : Js.number :=
  match upload_date v with
  | None => Some epoch
  | Some s => if String.eqb s "" then Some epoch else Date_parse s
  end.

(** [a] may stand before [b] in a list that is descending by upload date. *)
Definition date_desc (a b : Video) : Prop :=
  exists ta tb, upload_time a = Some ta /\ upload_time b = Some tb /\ tb <= ta.

(** Every record of the list has a date that is a date (or none). *)
Definition dated (l : list Video) : Prop :=
  Forall (fun v => upload_time v <> None) l.
End Dates.

(** [a] may stand before [b] in a list that is descending by views. *)
Definition views_desc (a b : Video) : Prop := field (views b) <= field (views a).

(** [p] is a prefix of [l]. *)
Definition prefix {A : Type} (p l : list A) : Prop := exists rest, l = p ++ rest.

End Spec.

(** The stats the component holds once a fetch started for [userEmail] in
    state [st] has settled with [o], the effect still being mounted. *)
Definition stats_after (Date_parse : string -> Js.number) (st : DashState)
  (userEmail : string) (o : Outcome) : Stats :=
  st_stats (state (run Date_parse (started st userEmail) [Settle o])).

(** The feed of the specification's example. *)
Definition january : Video :=
  {| id := None; title := None; thumbnail_url := None; duration := None;
     views := Some 5; likes := Some 1; upload_date := Some "2024-01-01";
     uploader_email := Some "A@x.com"; uploader := None |}.

Definition february : Video :=
  {| id := None; title := None; thumbnail_url := None; duration := None;
     views := Some 10; likes := Some 2; upload_date := Some "2024-02-01";
     uploader_email := Some "a@x.com"; uploader := None |}.

Definition exampleFeed : list Video := [january; february].

(** A record uploaded under another top-level address whose nested uploader
    is the user. *)
Definition nestedOnly : Video :=
  {| id := Some 7; title := Some "clip"; thumbnail_url := None; duration := None;
     views := Some 4; likes := None; upload_date := None;
     uploader_email := Some "other@x.com";
     uploader := Some {| email := Some "A@X.com" |} |}.

(** ** [VideoCard] and [DashboardHome] *)

(** [s.split(sep)[0]]: what stands in front of the first [sep], the whole
    string when there is none. *)
Fixpoint split_first (sep : ascii) (s : string) : string :=
  match s with
  | EmptyString => EmptyString
  | String c s' =>
      if Ascii.eqb c sep then EmptyString else String c (split_first sep s')
  end.

(** [a || b] for a possibly missing string [a]. *)
Definition or_string (a : option string) (b : string) : string :=
  match a with
  | Some (String c s) => String c s
  | _ => b
  end.

(** [x?.split(sep)[0]] *)
Definition opt_split_first (sep : ascii) (x : option string) : option string :=
  match x with
  | Some s => Some (split_first sep s)
  | None => None
  end.

(** [user?.displayName] *)
Definition user_displayName_opt (u : option User) : option string :=
  match u with
  | Some u => displayName u
  | None => None
  end.

(** The name of the welcome line:
    [user?.displayName?.split(' ')[0] || user?.email?.split('@')[0] || 'Creator'] *)
Definition welcomeName (u : option User) : string :=
  or_string (opt_split_first " " (user_displayName_opt u))
    (or_string (opt_split_first "@" (user_email_opt u)) "Creator").

(** [getStorageColor] of [DashboardHome]. *)
Definition getStorageColor (percentage : Z) : string :=
  if percentage <? 50 then "green"
  else if percentage <? 80 then "yellow"
  else "red".

(** The [type] prop of [VideoCard]. *)
Inductive CardType := Recent | Popular.

(** The address of the image shown when a record has no thumbnail. *)
Definition defaultThumbnail : string :=
  "https://flowbite.com/docs/images/blog/image-1.jpg".

(** What a [VideoCard] puts on screen: the record the link [/video/${id}]
    leads to, the image, the duration, the "Popular" badge, the title and
    the three figures of the bottom line. *)
Record Card := mkCard {
  card_id : option Z;
  card_src : string;
  card_duration : string;
  card_badge : bool;
  card_title : option string;
  card_views : Z;
  card_likes : Z;
  card_createdAt : string
}.

(** The two states of the "Recent Videos" grid. *)
Inductive RecentSection :=
| RecentCards (cards : list Card)
| RecentPlaceholder.

(** The two states of the "Popular Videos" column; the message carries the
    class [hidden] when there are no videos at all. *)
Inductive PopularSection :=
| PopularCards (cards : list Card)
| PopularMessage (hidden : bool).

(** What [DashboardHome] puts on screen. *)
Record Home := mkHome {
  home_welcome : string;
  home_totalVideos : Z;
  home_totalViews : Z;
  home_totalLikes : Z;
  home_storage : Z;
  home_storageColor : string;
  home_viewAll : bool;
  home_recent : RecentSection;
  home_analyticsButton : bool;
  home_popular : PopularSection;
  home_quickAnalytics : bool
}.

Section Presentation.

(** [VideoService.formatRelativeTime], which is not part of this file. *)
Variable formatRelativeTime : string -> string.

Definition VideoCard (video : Video) (type : CardType) : Card :=
  let duration := or_string (duration video) "00:00" in
  let createdAt :=
    match upload_date video with
    | Some (String c s) => formatRelativeTime (String c s)
    | _ => "Unknown date"
    end in
  {| card_id := id video;
     card_src := or_string (thumbnail_url video) defaultThumbnail;
     card_duration := duration;
     card_badge := match type with Popular => true | Recent => false end;
     card_title := title video;
     card_views := Js.or_zero (views video);
     card_likes := Js.or_zero (likes video);
     card_createdAt := createdAt |}.

Definition DashboardHome (u : option User) (stats : Stats) : Home :=
  let storageColor := getStorageColor (storageUsed stats) in
  let hasVideos := 0 <? totalVideos stats in
  {| home_welcome := welcomeName u;
     home_totalVideos := totalVideos stats;
     home_totalViews := totalViews stats;
     home_totalLikes := totalLikes stats;
     home_storage := storageUsed stats;
     home_storageColor := storageColor;
     home_viewAll := hasVideos;
     home_recent :=
       if hasVideos && (0 <? Z.of_nat (List.length (recentVideos stats)))
       then RecentCards (map (fun video => VideoCard video Recent) (recentVideos stats))
       else RecentPlaceholder;
     home_analyticsButton := hasVideos;
     home_popular :=
       if hasVideos && (0 <? Z.of_nat (List.length (popularVideos stats)))
       then PopularCards (map (fun video => VideoCard video Popular) (popularVideos stats))
       else PopularMessage (negb hasVideos);
     home_quickAnalytics := hasVideos |}.

End Presentation.


(** Records and users for the examples. *)
Definition anonymousVideo : Video :=
  {| id := Some 9; title := Some "untitled"; thumbnail_url := None;
     duration := None; views := Some 100; likes := Some 50;
     upload_date := Some "2024-03-01"; uploader_email := None;
     uploader := Some {| email := None |} |}.

Definition alice : User :=
  {| user_email := Some "a@x.com"; displayName := Some "Alice Liddell" |}.

(** * Properties *)

(** ** Strings and sums *)

Lemma eq_ignore_case_toLowerCase (a b : string) :
  Spec.eq_ignore_case a b = String.eqb (Js.toLowerCase a) (Js.toLowerCase b).
Proof.
  revert b; induction a as [|c a IH]; intros [|d b]; simpl; auto.
  now rewrite IH.
Qed.

Lemma opt_lower_eq_spec (a : option string) (b : string) :
  Js.opt_lower_eq a b =
  match a with Some s => Spec.eq_ignore_case s b | None => false end.
Proof.
  destruct a; simpl; auto using eq_sym, eq_ignore_case_toLowerCase.
Qed.

Lemma isUserVideo_matches (userEmail : string) (v : Video) :
  isUserVideo userEmail v = Spec.matches userEmail v.
Proof.
  unfold isUserVideo, Spec.matches, Spec.uploader_emails, uploader_email_nested.
  rewrite !opt_lower_eq_spec.
  destruct (uploader_email v), (uploader v) as [[[n|]]|]; simpl;
    rewrite ?orb_false_r; reflexivity.
Qed.

Lemma userVideos_matches (userEmail : string) (allVideos : list Video) :
  userVideos userEmail allVideos = filter (Spec.matches userEmail) allVideos.
Proof.
  unfold userVideos. apply filter_ext. intro; apply isUserVideo_matches.
Qed.

Lemma or_zero_field (x : option Z) : Js.or_zero x = Spec.field x.
Proof.
  destruct x as [n|]; simpl; auto.
  destruct (Z.eqb_spec n 0); congruence.
Qed.

Lemma fold_left_sum {A : Type} (f : A -> Z) (l : list A) (a : Z) :
  fold_left (fun sum v => sum + f v) l a = a + Spec.sum (map f l).
Proof.
  revert a; induction l as [|x l IH]; intro a; simpl.
  - lia.
  - rewrite IH. lia.
Qed.

Lemma reduce_sum_spec {A : Type} (f : A -> Z) (l : list A) :
  Js.reduce_sum f l = Spec.sum (map f l).
Proof. unfold Js.reduce_sum. now rewrite fold_left_sum. Qed.

Lemma sum_app (l1 l2 : list Z) : Spec.sum (l1 ++ l2) = Spec.sum l1 + Spec.sum l2.
Proof. induction l1; simpl; lia. Qed.

(** ** [Array.prototype.sort] *)

Section SortFacts.
Context {A : Type}.
Variable comparefn : A -> A -> Js.number.

Lemma insert_perm (x : A) (l : list A) :
  Permutation (Js.insert comparefn x l) (x :: l).
Proof.
  induction l as [|y l IH]; simpl; auto.
  destruct (Js.keeps_before comparefn x y); auto.
  rewrite IH. apply perm_swap.
Qed.

Lemma sort_perm (l : list A) : Permutation (Js.sort comparefn l) l.
Proof.
  induction l as [|x l IH]; simpl; auto.
  rewrite insert_perm. now constructor.
Qed.

Lemma sort_length (l : list A) : List.length (Js.sort comparefn l) = List.length l.
Proof. apply Permutation_length, sort_perm. Qed.

(** Stability: a list in which every element may already stay in front of
    its successor is left as it is, whatever compares equal included. *)
Lemma sort_in_order (l : list A) :
  Sorted (fun x y => Js.keeps_before comparefn x y = true) l ->
  Js.sort comparefn l = l.
Proof.
  induction 1 as [|x l Hs IH Hx]; simpl; auto.
  rewrite IH. destruct Hx as [|y l Hxy]; simpl; auto.
  now rewrite Hxy.
Qed.

(** The comparator decides a transitive relation [R] on the elements that
    satisfy [P]. *)
Variables (R : A -> A -> Prop) (P : A -> Prop).
Hypothesis R_trans : forall x y z, R x y -> R y z -> R x z.
Hypothesis before_R :
  forall x y, P x -> P y -> Js.keeps_before comparefn x y = true -> R x y.
Hypothesis after_R :
  forall x y, P x -> P y -> Js.keeps_before comparefn x y = false -> R y x.

Lemma insert_sorted (x : A) (l : list A) :
  P x -> Forall P l -> StronglySorted R l ->
  StronglySorted R (Js.insert comparefn x l).
Proof.
  intros Px Pl Hs. induction Hs as [|y l Hs IH Hy]; simpl.
  - repeat constructor.
  - inversion Pl as [|? ? Py Pl']; subst.
    destruct (Js.keeps_before comparefn x y) eqn:E.
    + constructor; [now constructor|].
      constructor; [now apply before_R|].
      eapply Forall_impl; [|exact Hy]. intros z Hz.
      apply R_trans with y; [now apply before_R | exact Hz].
    + constructor; [now apply IH|].
      apply Forall_forall. intros z Hz.
      apply (Permutation_in _ (insert_perm x l)) in Hz.
      destruct Hz as [<-|Hz]; [now apply after_R|].
      rewrite Forall_forall in Hy; auto.
Qed.

Lemma sort_sorted (l : list A) :
  Forall P l -> StronglySorted R (Js.sort comparefn l).
Proof.
  induction 1 as [|x l Px Pl IH]; simpl; [constructor|].
  apply insert_sorted; auto.
  apply Forall_forall. intros z Hz.
  apply (Permutation_in _ (sort_perm l)) in Hz.
  rewrite Forall_forall in Pl; auto.
Qed.

End SortFacts.

(** ** Dates of the ISO format *)

Example Date_parse_january : ISO.Date_parse "2024-01-01" = Some 1704067200000.
Proof. reflexivity. Qed.

Example Date_parse_february : ISO.Date_parse "2024-02-01" = Some 1706745600000.
Proof. reflexivity. Qed.

Example Date_parse_date_time :
  ISO.Date_parse "2000-03-01T12:00:01.500Z" = Some 951912001500.
Proof. reflexivity. Qed.

Example Date_parse_not_a_date : ISO.Date_parse "yesterday" = None.
Proof. reflexivity. Qed.

(** ** When the effect fetches *)

Lemma useEffect_fetches (u : option User) (st : DashState) (userEmail : string) :
  user_email_opt u = Some userEmail -> userEmail <> "" ->
  useEffect_body true u st = started st userEmail.
Proof.
  intros Hu Hne. unfold useEffect_body. rewrite Hu.
  destruct userEmail; [congruence|reflexivity].
Qed.

Lemma useEffect_idle (isMainDashboard : bool) (u : option User) (st : DashState) :
  isMainDashboard = false \/ Js.truthy_str (user_email_opt u) = false ->
  effect (useEffect_body isMainDashboard u st) = None /\
  st_loading (state (useEffect_body isMainDashboard u st)) = false.
Proof.
  unfold useEffect_body. intros [->| ->]; simpl; auto.
  rewrite orb_true_r. auto.
Qed.

Lemma started_state (st : DashState) (userEmail : string) :
  state (started st userEmail) =
  {| st_loading := true; st_error := None; st_stats := st_stats st |}.
Proof. reflexivity. Qed.

(** ** The stats a settled fetch leaves behind *)

Section PipelineFacts.
Variable Date_parse : string -> Js.number.

(** The object literal of the success branch. *)
Lemma stats_after_array (st : DashState) (userEmail : string)
  (allVideos : list Video) :
  stats_after Date_parse st userEmail (Resolved (RArray allVideos)) =
  let mine := userVideos userEmail allVideos in
  match mine with
  | [] => emptyStats
  | _ :: _ =>
      {| totalVideos := Z.of_nat (List.length mine);
         totalViews := Js.reduce_sum (fun v => Js.or_zero (views v)) mine;
         totalLikes := Js.reduce_sum (fun v => Js.or_zero (likes v)) mine;
         storageUsed := 25;
         recentVideos := firstn 3 (sortedByDate Date_parse mine);
         popularVideos := firstn 2 (sortedByViews mine) |}
  end.
Proof.
  unfold stats_after, run, started, perform; simpl.
  unfold fetchDashboardData_resume, fetch_try; simpl.
  destruct (userVideos userEmail allVideos) as [|v mine] eqn:E.
  - reflexivity.
  - replace (0 <? Z.of_nat (List.length (v :: mine))) with true
      by (symmetry; apply Z.ltb_lt; simpl List.length; lia).
    reflexivity.
Qed.

Lemma stats_after_non_array (st : DashState) (userEmail : string) (r : Response) :
  Array_isArray r = false ->
  stats_after Date_parse st userEmail (Resolved r) = emptyStats.
Proof. destruct r; simpl; try discriminate; reflexivity. Qed.

Lemma stats_after_rejected (st : DashState) (userEmail : string) (e : JsError) :
  stats_after Date_parse st userEmail (Rejected e) = emptyStats.
Proof. reflexivity. Qed.

End PipelineFacts.

(** ** Totals, recent and popular videos *)

Section StatsFacts.
Variable Date_parse : string -> Js.number.

Lemma Date_time_upload_time (v : Video) :
  Date_time Date_parse (upload_date v) = Spec.upload_time Date_parse v.
Proof.
  unfold Date_time, Spec.upload_time.
  destruct (upload_date v) as [[|c s]|]; reflexivity.
Qed.

Lemma date_desc_trans (x y z : Video) :
  Spec.date_desc Date_parse x y -> Spec.date_desc Date_parse y z ->
  Spec.date_desc Date_parse x z.
Proof.
  intros (ta & tb & Ha & Hb & Hab) (tb' & tc & Hb' & Hc & Hbc).
  exists ta, tc. repeat split; auto.
  rewrite Hb in Hb'. injection Hb' as <-. lia.
Qed.

Lemma byDate_decides (x y : Video) :
  Spec.upload_time Date_parse x <> None ->
  Spec.upload_time Date_parse y <> None ->
  if Js.keeps_before (byDate Date_parse) x y
  then Spec.date_desc Date_parse x y
  else Spec.date_desc Date_parse y x.
Proof.
  intros Hx Hy. unfold Js.keeps_before, byDate.
  rewrite !Date_time_upload_time.
  destruct (Spec.upload_time Date_parse x) as [tx|] eqn:Ex; [|congruence].
  destruct (Spec.upload_time Date_parse y) as [ty|] eqn:Ey; [|congruence].
  simpl. destruct (Z.leb_spec (ty - tx) 0).
  - exists tx, ty. repeat split; auto. lia.
  - exists ty, tx. repeat split; auto. lia.
Qed.

Lemma sortedByDate_sorted (l : list Video) :
  Spec.dated Date_parse l ->
  StronglySorted (Spec.date_desc Date_parse) (sortedByDate Date_parse l).
Proof.
  intro Hl. unfold sortedByDate.
  apply sort_sorted with (P := fun v => Spec.upload_time Date_parse v <> None).
  - exact date_desc_trans.
  - intros x y Hx Hy E. generalize (byDate_decides x y Hx Hy). now rewrite E.
  - intros x y Hx Hy E. generalize (byDate_decides x y Hx Hy). now rewrite E.
  - exact Hl.
Qed.

Lemma sortedByViews_sorted (l : list Video) :
  StronglySorted Spec.views_desc (sortedByViews l).
Proof.
  unfold sortedByViews.
  apply sort_sorted with (P := fun _ => True).
  - unfold Spec.views_desc. intros; lia.
  - intros x y _ _. unfold Js.keeps_before, byViews, Spec.views_desc.
    rewrite !or_zero_field. intro E. apply Z.leb_le in E. lia.
  - intros x y _ _. unfold Js.keeps_before, byViews, Spec.views_desc.
    rewrite !or_zero_field. intro E. apply Z.leb_gt in E. lia.
  - apply Forall_forall; auto.
Qed.

Lemma firstn_prefix {A : Type} (n : nat) (l : list A) : Spec.prefix (firstn n l) l.
Proof. exists (skipn n l). symmetry. apply firstn_skipn. Qed.

Lemma recentVideos_after (st : DashState) (userEmail : string)
  (allVideos : list Video) :
  recentVideos (stats_after Date_parse st userEmail (Resolved (RArray allVideos)))
  = firstn 3 (sortedByDate Date_parse (userVideos userEmail allVideos)).
Proof.
  rewrite stats_after_array.
  destruct (userVideos userEmail allVideos); reflexivity.
Qed.

Lemma popularVideos_after (st : DashState) (userEmail : string)
  (allVideos : list Video) :
  popularVideos (stats_after Date_parse st userEmail (Resolved (RArray allVideos)))
  = firstn 2 (sortedByViews (userVideos userEmail allVideos)).
Proof.
  rewrite stats_after_array.
  destruct (userVideos userEmail allVideos); reflexivity.
Qed.

Lemma totals_after (st : DashState) (userEmail : string) (allVideos : list Video) :
  let mine := userVideos userEmail allVideos in
  let stats := stats_after Date_parse st userEmail (Resolved (RArray allVideos)) in
  totalViews stats = Spec.sum (map (fun v => Spec.field (views v)) mine) /\
  totalLikes stats = Spec.sum (map (fun v => Spec.field (likes v)) mine) /\
  totalVideos stats = Z.of_nat (List.length mine).
Proof.
  intros mine stats. subst mine stats.
  rewrite stats_after_array.
  destruct (userVideos userEmail allVideos) as [|v mine] eqn:E.
  - repeat split.
  - cbv beta iota zeta delta [totalViews totalLikes totalVideos].
    rewrite !reduce_sum_spec.
    repeat split; apply f_equal, map_ext; intro; apply or_zero_field.
Qed.



(** C3.  [popularVideos] is a prefix, of length at most 2, of the user's
    videos sorted descending by views, a record without views standing where
    0 views would. *)
Theorem popularVideos_prefix_by_views (st : DashState) (userEmail : string)
  (allVideos : list Video) :
  exists sorted,
    Permutation sorted (filter (Spec.matches userEmail) allVideos) /\
    StronglySorted Spec.views_desc sorted /\
    Spec.prefix
      (popularVideos (stats_after Date_parse st userEmail (Resolved (RArray allVideos))))
      sorted /\
    (List.length
       (popularVideos (stats_after Date_parse st userEmail (Resolved (RArray allVideos))))
     <= 2)%nat /\
    popularVideos (stats_after Date_parse st userEmail (Resolved (RArray allVideos)))
    = firstn 2 sorted.
Proof.
  rewrite popularVideos_after, userVideos_matches.
  exists (sortedByViews (filter (Spec.matches userEmail) allVideos)).
  split; [apply sort_perm|].
  split; [apply sortedByViews_sorted|].
  split; [apply firstn_prefix|].
  split; [apply firstn_le_length|reflexivity].
Qed.

End StatsFacts.

(** ** Failure paths, the placeholder and the mounted flag *)

Section RunFacts.
Variable Date_parse : string -> Js.number.

Lemma errorMessage_not_empty (e : JsError) : errorMessage e <> "".
Proof.
  unfold errorMessage. destruct (message e) as [[|c m]|]; discriminate.
Qed.

Lemma run_app (c : Component) (evs evs' : list Event) :
  run Date_parse c (evs ++ evs') = run Date_parse (run Date_parse c evs) evs'.
Proof. apply fold_left_app. Qed.

Lemma step_not_mounted_pending (c : Component) (ev : Event) :
  mounted_pending c = false -> mounted_pending (step Date_parse c ev) = false.
Proof.
  unfold mounted_pending, step.
  destruct (effect c) as [e|] eqn:E; [|now rewrite E].
  intro H. destruct ev as [|o|].
  - reflexivity.
  - destruct (pending e) eqn:Ep; simpl.
    + apply andb_false_r.
    + now rewrite E, Ep.
  - destruct (isMounted e) eqn:Em; [|now rewrite E, Em].
    destruct (Dashboard_render true None (state c)); simpl; now rewrite ?E, ?Em.
Qed.

Lemma run_not_mounted_pending (c : Component) (evs : list Event) :
  mounted_pending c = false -> mounted_pending (run Date_parse c evs) = false.
Proof.
  revert c. induction evs as [|ev evs IH]; intros c H; simpl; auto.
  apply IH, step_not_mounted_pending, H.
Qed.

(** While the effect is mounted and its fetch in flight the component is as
    the start of the fetch left it: the spinner is up, so there is nothing to
    dismiss. *)
Lemma mounted_pending_started (st : DashState) (userEmail : string)
  (pre : list Event) :
  mounted_pending (run Date_parse (started st userEmail) pre) = true ->
  run Date_parse (started st userEmail) pre = started st userEmail.
Proof.
  induction pre as [|ev pre IH]; simpl; auto.
  destruct ev as [|o|].
  - intro H. rewrite run_not_mounted_pending in H; [discriminate|reflexivity].
  - intro H. rewrite run_not_mounted_pending in H; [discriminate|reflexivity].
  - exact IH.
Qed.

(** C5.  In every run in which the feed promise rejects, its effect being
    mounted, the stats are reset to the all-zero, empty default and the error
    is set to the rejection's message, or to the fallback text when that
    message is missing or empty; the component then shows the alert, and
    dismissing the alert clears the error. *)
Theorem rejection_resets_stats_and_reports (st : DashState) (userEmail : string)
  (pre : list Event) (u : option User) (e : JsError) :
  mounted_pending (run Date_parse (started st userEmail) pre) = true ->
  let c := run Date_parse (started st userEmail) (pre ++ [Settle (Rejected e)]) in
  st_stats (state c) =
    {| totalVideos := 0; totalViews := 0; totalLikes := 0; storageUsed := 0;
       recentVideos := []; popularVideos := [] |} /\
  st_loading (state c) = false /\
  st_error (state c) = Some (errorMessage e) /\
  (forall m, message e = Some m -> m <> "" -> errorMessage e = m) /\
  (message e = None \/ message e = Some "" -> errorMessage e = fallbackMessage) /\
  Dashboard_render true u (state c) = VAlert (errorMessage e) /\
  st_error (state (step Date_parse c Dismiss)) = None /\
  st_stats (state (step Date_parse c Dismiss)) = emptyStats.
Proof.
  intros Hlive c. subst c.
  rewrite run_app, (mounted_pending_started _ _ _ Hlive).
  assert (Hne := errorMessage_not_empty e).
  unfold run, started, perform, step, Dashboard_render; simpl.
  destruct (errorMessage e) as [|a m] eqn:E; [congruence|]. simpl.
  repeat split.
  - intros m' Hm Hm'. unfold errorMessage in E. rewrite Hm in E.
    destruct m'; congruence.
  - intros [Hm|Hm]; unfold errorMessage in E; rewrite Hm in E; congruence.
Qed.

(** C6.  In every run in which the feed promise resolves with something
    that is not an array, its effect being mounted, the stats are reset to
    the all-zero, empty default and no error is set: the error is [null]
    afterwards, no write of the run gave it a message, and the dashboard is
    rendered with the empty stats. *)
Theorem non_array_resets_stats_without_error (st : DashState)
  (userEmail : string) (pre : list Event) (u : option User) (r : Response) :
  mounted_pending (run Date_parse (started st userEmail) pre) = true ->
  Array_isArray r = false ->
  let c := run Date_parse (started st userEmail) (pre ++ [Settle (Resolved r)]) in
  st_stats (state c) =
    {| totalVideos := 0; totalViews := 0; totalLikes := 0; storageUsed := 0;
       recentVideos := []; popularVideos := [] |} /\
  st_error (state c) = None /\
  st_loading (state c) = false /\
  (forall m, ~ In (SetError (Some m)) (log c)) /\
  Dashboard_render true u (state c) = VHome u emptyStats.
Proof.
  intros Hlive Hr c. subst c.
  rewrite run_app, (mounted_pending_started _ _ _ Hlive).
  destruct r; try discriminate Hr;
    (repeat split; try reflexivity;
     intros m Hin; simpl in Hin;
     repeat (destruct Hin as [Hin|Hin]; [discriminate Hin|]); exact Hin).
Qed.

Lemma filter_nil_existsb {A : Type} (f : A -> bool) (l : list A) :
  existsb f l = false -> filter f l = [].
Proof.
  induction l as [|x l IH]; simpl; auto.
  destruct (f x); simpl; [discriminate|auto].
Qed.

(** C7, as the code has it.  [storageUsed] is one of two placeholder
    constants picked by the outcome of the fetch: 25 when the feed is an
    array that holds at least one video of the user, 0 when the user has no
    video in the feed, when the response is not an array and when the fetch
    is rejected.  Nothing else of the feed or of the user enters it. *)
Theorem storageUsed_by_outcome (st : DashState) (userEmail : string) (o : Outcome) :
  storageUsed (stats_after Date_parse st userEmail o) =
  match o with
  | Resolved (RArray allVideos) =>
      if existsb (Spec.matches userEmail) allVideos then 25 else 0
  | _ => 0
  end.
Proof.
  destruct o as [r|e]; [|reflexivity].
  destruct r; try reflexivity.
  rewrite stats_after_array, userVideos_matches.
  destruct (existsb (Spec.matches userEmail) videos) eqn:E.
  - apply existsb_exists in E. destruct E as (v & Hin & Hv).
    assert (Hf : In v (filter (Spec.matches userEmail) videos))
      by (apply filter_In; auto).
    destruct (filter (Spec.matches userEmail) videos); [destruct Hf|reflexivity].
  - now rewrite filter_nil_existsb.
Qed.

Lemma resume_unmounted_writes_nothing (userEmail : string) (o : Outcome) :
  Handler.writes (fetchDashboardData_resume Date_parse false userEmail o) = [].
Proof. destruct o; reflexivity. Qed.

Lemma step_quiet (c : Component) (ev : Event) :
  quiet c ->
  state (step Date_parse c ev) = state c /\
  log (step Date_parse c ev) = log c /\
  quiet (step Date_parse c ev).
Proof.
  unfold quiet, step. destruct (effect c) as [e|] eqn:E.
  - intro Hm. rewrite Hm. destruct ev as [|o|].
    + unfold perform; simpl. rewrite app_nil_r. auto.
    + destruct (pending e).
      * rewrite resume_unmounted_writes_nothing.
        unfold perform; simpl. rewrite app_nil_r. auto.
      * rewrite E. auto.
    + rewrite E. auto.
  - rewrite E. auto.
Qed.

Lemma run_quiet (c : Component) (evs : list Event) :
  quiet c ->
  state (run Date_parse c evs) = state c /\ log (run Date_parse c evs) = log c.
Proof.
  revert c. induction evs as [|ev evs IH]; intros c Hq; simpl; auto.
  destruct (step_quiet c ev Hq) as (Hs & Hl & Hq').
  destruct (IH _ Hq') as [Hs' Hl']. split; congruence.
Qed.

Lemma cleanup_quiet (c : Component) : quiet (step Date_parse c Cleanup).
Proof.
  unfold quiet, step. destruct (effect c) as [e|] eqn:E; simpl; auto.
  now rewrite E.
Qed.

(** C8.  Once the cleanup of the effect has run, whatever happens next (the
    feed resolving or rejecting, however late) changes neither the state
    nor the list of writes: every write after the [await] is behind the
    [isMounted] flag, so the resumed function writes nothing when the flag
    is down. *)
Theorem no_write_after_unmount (c : Component) (pre post : list Event) :
  let unmounted := run Date_parse c (pre ++ [Cleanup]) in
  let final := run Date_parse unmounted post in
  state final = state unmounted /\
  log final = log unmounted /\
  (forall userEmail o,
     Handler.writes (fetchDashboardData_resume Date_parse false userEmail o) = []).
Proof.
  intros unmounted final.
  assert (Hq : quiet unmounted).
  { subst unmounted. unfold run. rewrite fold_left_app. simpl. apply cleanup_quiet. }
  destruct (run_quiet unmounted post Hq) as [Hs Hl].
  repeat split; auto using resume_unmounted_writes_nothing.
Qed.

End RunFacts.

(** C7, as the specification words it, fails: a fetch that finds a video of
    the user and a fetch that finds none leave different [storageUsed]. *)
Lemma storageUsed_not_constant :
  storageUsed (stats_after ISO.Date_parse initialState "a@x.com"
                 (Resolved (RArray exampleFeed)))
  <> storageUsed (stats_after ISO.Date_parse initialState "a@x.com"
                    (Resolved (RArray []))).
Proof. vm_compute. discriminate. Qed.

(** C9.  The example of the specification: for the feed of the January video
    of [A@x.com] (5 views, 1 like) and the February video of [a@x.com]
    (10 views, 2 likes) and the user [a@x.com], the stats count 2 videos,
    15 views and 3 likes, and both lists hold February before January. *)
Theorem example_feed_stats (st : DashState) :
  let stats := stats_after ISO.Date_parse st "a@x.com" (Resolved (RArray exampleFeed)) in
  totalVideos stats = 2 /\
  totalViews stats = 15 /\
  totalLikes stats = 3 /\
  recentVideos stats = [february; january] /\
  popularVideos stats = [february; january].
Proof. vm_compute. repeat split. Qed.

Section CountingFacts.
Variable Date_parse : string -> Js.number.

Lemma userVideos_insert (userEmail : string) (pre post : list Video) (video : Video) :
  isUserVideo userEmail video = true ->
  userVideos userEmail (pre ++ video :: post) =
  userVideos userEmail pre ++ video :: userVideos userEmail post.
Proof.
  intro H. unfold userVideos. rewrite filter_app. simpl. now rewrite H.
Qed.

Lemma userVideos_app (userEmail : string) (pre post : list Video) :
  userVideos userEmail (pre ++ post) =
  userVideos userEmail pre ++ userVideos userEmail post.
Proof. apply filter_app. Qed.

(** C10.  The filter is a disjunction: a record whose top-level
    [uploader_email] is present and does not match the user's e-mail is
    still one of the user's videos when the e-mail of its nested [uploader]
    matches ignoring case, and it is counted: with the record in the feed
    the totals grow by one video and by its views and likes. *)
Theorem nested_email_counts_despite_mismatch (st : DashState) (userEmail : string)
  (pre post : list Video) (video : Video) (top nested : string) :
  uploader_email video = Some top ->
  Spec.eq_ignore_case top userEmail = false ->
  uploader_email_nested video = Some nested ->
  Spec.eq_ignore_case nested userEmail = true ->
  let withVideo :=
    stats_after Date_parse st userEmail (Resolved (RArray (pre ++ video :: post))) in
  let without :=
    stats_after Date_parse st userEmail (Resolved (RArray (pre ++ post))) in
  isUserVideo userEmail video = true /\
  In video (userVideos userEmail (pre ++ video :: post)) /\
  totalVideos withVideo = totalVideos without + 1 /\
  totalViews withVideo = totalViews without + Spec.field (views video) /\
  totalLikes withVideo = totalLikes without + Spec.field (likes video).
Proof.
  intros Htop Hmis Hnested Hmatch withVideo without.
  assert (Hv : isUserVideo userEmail video = true).
  { unfold isUserVideo. rewrite !opt_lower_eq_spec, Htop, Hnested, Hmis, Hmatch.
    reflexivity. }
  destruct (totals_after Date_parse st userEmail (pre ++ video :: post))
    as (Hviews & Hlikes & Hcount).
  destruct (totals_after Date_parse st userEmail (pre ++ post))
    as (Hviews' & Hlikes' & Hcount').
  subst withVideo without.
  rewrite Hviews, Hlikes, Hcount, Hviews', Hlikes', Hcount'.
  rewrite userVideos_insert, userVideos_app by exact Hv.
  rewrite !map_app, !length_app. simpl. rewrite !sum_app. simpl.
  repeat split; try lia; [exact Hv|].
  apply in_or_app. right. now left.
Qed.

End CountingFacts.

(** ** [PrivateRoute] *)

Section PrivateRouteFacts.
Context {Location Node : Type}.

Lemma hooks_after_snoc (history : list AuthContext) (ctx : AuthContext) :
  PrivateRoute.hooks_after (history ++ [ctx]) =
  PrivateRoute.commit (PrivateRoute.hooks_after history) ctx.
Proof. unfold PrivateRoute.hooks_after. now rewrite fold_left_app. Qed.

(** [authChecked] is up exactly when an earlier committed render saw
    [loading = false]. *)
Lemma authChecked_history (history : list AuthContext) :
  let h := PrivateRoute.hooks_after history in
  PrivateRoute.authChecked h = existsb (fun c => negb (loading c)) history /\
  (PrivateRoute.lastDeps h = Some false -> PrivateRoute.authChecked h = true).
Proof.
  induction history as [|ctx history IH] using rev_ind.
  - split; [reflexivity|discriminate].
  - cbv zeta in *. rewrite hooks_after_snoc, existsb_app. simpl.
    destruct IH as [IHa IHd]. rewrite <- IHa.
    unfold PrivateRoute.commit; simpl.
    destruct (loading ctx); simpl.
    + rewrite andb_false_r, !orb_false_r. split; [reflexivity|discriminate].
    + rewrite andb_true_r, orb_true_r.
      destruct (PrivateRoute.lastDeps (PrivateRoute.hooks_after history))
        as [[|]|]; simpl; auto.
Qed.

Lemma settled_authChecked (history : list AuthContext) (ctx : AuthContext) :
  PrivateRoute.settled history ctx =
  PrivateRoute.authChecked (PrivateRoute.hooks_after history) || negb (loading ctx).
Proof.
  unfold PrivateRoute.settled. rewrite existsb_app. simpl.
  destruct (authChecked_history history) as [-> _].
  now rewrite orb_false_r.
Qed.

(** C4.  Whatever the auth context and the renders that came before, the
    route renders the spinner exactly when [loading] is true and auth has
    not settled yet; the redirect to [/login] that carries the current
    location as [from] exactly when auth has settled and there is no user;
    and its children, unchanged, in every other case. *)
Theorem PrivateRoute_renders (history : list AuthContext) (ctx : AuthContext)
  (location : Location) (children : Node) :
  let out := PrivateRoute.render_after history ctx location children in
  let settled := PrivateRoute.settled history ctx in
  (out = PrivateRoute.Spinner <-> loading ctx = true /\ settled = false) /\
  (out = PrivateRoute.Navigate "/login" location true <->
   settled = true /\ user ctx = None) /\
  (out <> PrivateRoute.Spinner ->
   out <> PrivateRoute.Navigate "/login" location true ->
   out = PrivateRoute.Children children) /\
  (out = PrivateRoute.Children children <-> settled = true /\ user ctx <> None).
Proof.
  intros out settled. subst out settled.
  rewrite settled_authChecked.
  unfold PrivateRoute.render_after, PrivateRoute.render.
  destruct (PrivateRoute.authChecked (PrivateRoute.hooks_after history)),
    (loading ctx), (user ctx) as [u|]; simpl;
    repeat split; intros; try discriminate; try congruence; try tauto;
    try (destruct H; congruence).
Qed.

End PrivateRouteFacts.

(** ** The theorems at concrete inputs *)


(** C5 on a rejection without a message, after a click that found nothing
    to dismiss. *)
Lemma rejection_resets_stats_example :
  mounted_pending (run ISO.Date_parse (started initialState "a@x.com") [Dismiss]) = true /\
  let c := run ISO.Date_parse (started initialState "a@x.com")
             ([Dismiss] ++ [Settle (Rejected {| message := None |})]) in
  st_stats (state c) = emptyStats /\
  st_error (state c) = Some fallbackMessage.
Proof.
  split; [reflexivity|].
  destruct (rejection_resets_stats_and_reports ISO.Date_parse initialState "a@x.com"
              [Dismiss] None {| message := None |})
    as (Hstats & _ & Herror & _); [reflexivity|].
  split; [exact Hstats|exact Herror].
Defined.

(** C6 on a [null] response. *)
Lemma non_array_resets_stats_example :
  mounted_pending (run ISO.Date_parse (started initialState "a@x.com") []) = true /\
  Array_isArray RNull = false /\
  let c := run ISO.Date_parse (started initialState "a@x.com")
             ([] ++ [Settle (Resolved RNull)]) in
  st_stats (state c) = emptyStats /\
  st_error (state c) = None /\
  st_loading (state c) = false /\
  (forall m, ~ In (SetError (Some m)) (log c)) /\
  Dashboard_render true None (state c) = VHome None emptyStats.
Proof.
  split; [reflexivity|]. split; [reflexivity|].
  apply (non_array_resets_stats_without_error ISO.Date_parse initialState "a@x.com"
           [] None RNull); reflexivity.
Defined.

(** C10 on [nestedOnly] added to the example feed. *)
Lemma nested_email_counts_example :
  uploader_email nestedOnly = Some "other@x.com" /\
  Spec.eq_ignore_case "other@x.com" "a@x.com" = false /\
  uploader_email_nested nestedOnly = Some "A@X.com" /\
  Spec.eq_ignore_case "A@X.com" "a@x.com" = true /\
  isUserVideo "a@x.com" nestedOnly = true /\
  totalVideos (stats_after ISO.Date_parse initialState "a@x.com"
                 (Resolved (RArray ([january] ++ nestedOnly :: [february]))))
  = totalVideos (stats_after ISO.Date_parse initialState "a@x.com"
                   (Resolved (RArray ([january] ++ [february])))) + 1.
Proof.
  do 4 (split; [reflexivity|]).
  destruct (nested_email_counts_despite_mismatch ISO.Date_parse initialState
              "a@x.com" [january] [february] nestedOnly "other@x.com" "A@X.com")
    as (H1 & _ & H2 & _); try reflexivity.
  split; [exact H1|exact H2].
Defined.

(** * Further properties of the pipeline *)

Section ListFacts.
Context {A : Type}.

Lemma In_firstn (n : nat) (l : list A) (x : A) : In x (firstn n l) -> In x l.
Proof.
  intro H. rewrite <- (firstn_skipn n l). apply in_or_app. now left.
Qed.

Lemma StronglySorted_app_cross (R : A -> A -> Prop) (l1 l2 : list A) :
  StronglySorted R (l1 ++ l2) ->
  forall x y, In x l1 -> In y l2 -> R x y.
Proof.
  induction l1 as [|a l1 IH]; simpl; intros Hs x y Hx Hy; [destruct Hx|].
  inversion Hs as [|? ? Hs' Ha]; subst.
  destruct Hx as [<-|Hx].
  - rewrite Forall_forall in Ha. apply Ha, in_or_app. now right.
  - now apply IH.
Qed.

Lemma StronglySorted_firstn (R : A -> A -> Prop) (n : nat) (l : list A) :
  StronglySorted R l -> StronglySorted R (firstn n l).
Proof.
  intro Hs. revert n. induction Hs as [|a l Hs IH Ha]; intros [|n]; simpl;
    try constructor; auto.
  apply Forall_forall. intros x Hx. rewrite Forall_forall in Ha.
  eapply Ha, In_firstn, Hx.
Qed.


Lemma Sorted_weaken (R R' : A -> A -> Prop) (l : list A) :
  (forall x y, R x y -> R' x y) -> Sorted R l -> Sorted R' l.
Proof.
  intros HR. induction 1 as [|a l Hs IH Ha]; constructor; auto.
  destruct Ha; constructor; auto.
Qed.

End ListFacts.


Section MorePipelineFacts.
Variable Date_parse : string -> Js.number.

Lemma listed_lengths_aux (st : DashState) (userEmail : string)
  (allVideos : list Video) :
  let stats := stats_after Date_parse st userEmail (Resolved (RArray allVideos)) in
  let n := List.length (userVideos userEmail allVideos) in
  List.length (recentVideos stats) = Nat.min 3 n /\
  List.length (popularVideos stats) = Nat.min 2 n /\
  totalVideos stats = Z.of_nat n.
Proof.
  intros stats n. subst stats n.
  rewrite recentVideos_after, popularVideos_after, !length_firstn.
  unfold sortedByDate, sortedByViews. rewrite !sort_length.
  repeat split. apply totals_after.
Qed.

(** How many videos the two lists hold: three and two when the user has that
    many, all of the user's videos otherwise, and [totalVideos] is the number
    of the user's videos. *)
Theorem listed_lengths (st : DashState) (userEmail : string)
  (allVideos : list Video) :
  let stats := stats_after Date_parse st userEmail (Resolved (RArray allVideos)) in
  let n := List.length (userVideos userEmail allVideos) in
  List.length (recentVideos stats) = Nat.min 3 n /\
  List.length (popularVideos stats) = Nat.min 2 n /\
  totalVideos stats = Z.of_nat n.
Proof. apply listed_lengths_aux. Qed.

(** Neither list ever shows a video that is not a record of the feed
    uploaded by the user, whatever the dates and views in the feed. *)
Theorem listed_videos_are_the_users (st : DashState) (userEmail : string)
  (allVideos : list Video) (v : Video) :
  let stats := stats_after Date_parse st userEmail (Resolved (RArray allVideos)) in
  In v (recentVideos stats) \/ In v (popularVideos stats) ->
  In v allVideos /\ isUserVideo userEmail v = true.
Proof.
  intros stats H. subst stats.
  rewrite recentVideos_after, popularVideos_after in H.
  apply filter_In. fold (userVideos userEmail allVideos).
  destruct H as [H|H]; apply In_firstn in H;
    eapply Permutation_in; try exact H; apply sort_perm.
Qed.

(** [popularVideos] is the top of the user's videos by views: the videos
    left out, together with the ones shown, are the user's videos, and none
    left out has more views than one that is shown. *)
Theorem popularVideos_dominate_the_rest (st : DashState) (userEmail : string)
  (allVideos : list Video) :
  let stats := stats_after Date_parse st userEmail (Resolved (RArray allVideos)) in
  exists rest,
    Permutation (popularVideos stats ++ rest) (userVideos userEmail allVideos) /\
    forall shown left_out,
      In shown (popularVideos stats) -> In left_out rest ->
      Spec.field (views left_out) <= Spec.field (views shown).
Proof.
  intro stats. subst stats. rewrite popularVideos_after.
  exists (skipn 2 (sortedByViews (userVideos userEmail allVideos))).
  split.
  - rewrite firstn_skipn. apply sort_perm.
  - intros x y Hx Hy.
    change (Spec.views_desc x y).
    eapply StronglySorted_app_cross; [|exact Hx|exact Hy].
    rewrite firstn_skipn. apply sortedByViews_sorted.
Qed.

(** [recentVideos] is the top of the user's videos by upload date, when the
    dates present are dates: no video left out is newer than one shown, a
    video without a date counting as uploaded at the epoch. *)
Theorem recentVideos_dominate_the_rest (st : DashState) (userEmail : string)
  (allVideos : list Video) :
  Spec.dated Date_parse (userVideos userEmail allVideos) ->
  let stats := stats_after Date_parse st userEmail (Resolved (RArray allVideos)) in
  exists rest,
    Permutation (recentVideos stats ++ rest) (userVideos userEmail allVideos) /\
    forall shown left_out,
      In shown (recentVideos stats) -> In left_out rest ->
      Spec.date_desc Date_parse shown left_out.
Proof.
  intros Hd stats. subst stats. rewrite recentVideos_after.
  exists (skipn 3 (sortedByDate Date_parse (userVideos userEmail allVideos))).
  split.
  - rewrite firstn_skipn. apply sort_perm.
  - intros x y Hx Hy.
    eapply StronglySorted_app_cross; [|exact Hx|exact Hy].
    rewrite firstn_skipn. now apply sortedByDate_sorted.
Qed.

Lemma keeps_before_byViews (x y : Video) :
  Js.keeps_before byViews x y = true <-> Spec.views_desc x y.
Proof.
  unfold Js.keeps_before, byViews, Spec.views_desc. rewrite !or_zero_field.
  rewrite Z.leb_le. lia.
Qed.

(** Ties keep the order of the feed: when the user's videos already come in
    the feed with views that never increase (all equal, for one), the
    popular list is the first two of them as they come. *)
Theorem popularVideos_keep_feed_order (st : DashState) (userEmail : string)
  (allVideos : list Video) :
  Sorted Spec.views_desc (userVideos userEmail allVideos) ->
  popularVideos (stats_after Date_parse st userEmail (Resolved (RArray allVideos)))
  = firstn 2 (userVideos userEmail allVideos).
Proof.
  intro Hs. rewrite popularVideos_after. unfold sortedByViews.
  rewrite sort_in_order; [reflexivity|].
  eapply Sorted_weaken; [|exact Hs].
  intros x y. apply keeps_before_byViews.
Qed.


Lemma isUserVideo_case (userEmail userEmail' : string) (v : Video) :
  Spec.eq_ignore_case userEmail userEmail' = true ->
  isUserVideo userEmail v = isUserVideo userEmail' v.
Proof.
  rewrite eq_ignore_case_toLowerCase. intro H. apply String.eqb_eq in H.
  unfold isUserVideo, Js.opt_lower_eq. now rewrite H.
Qed.

(** The case in which the user's e-mail is written does not matter: two
    addresses that differ in case only give the same stats, whatever the
    fetch comes back with. *)
Theorem stats_ignore_case_of_user_email (st : DashState)
  (userEmail userEmail' : string) (o : Outcome) :
  Spec.eq_ignore_case userEmail userEmail' = true ->
  stats_after Date_parse st userEmail o = stats_after Date_parse st userEmail' o.
Proof.
  intro H. destruct o as [r|e]; [|reflexivity].
  destruct r; try reflexivity.
  rewrite !stats_after_array.
  replace (userVideos userEmail' videos) with (userVideos userEmail videos);
    [reflexivity|].
  apply filter_ext. intro v. now apply isUserVideo_case.
Qed.

(** A video of somebody else changes nothing: with or without it in the
    feed, every field of the stats is the same. *)
Theorem other_uploaders_are_ignored (st : DashState) (userEmail : string)
  (pre post : list Video) (video : Video) :
  isUserVideo userEmail video = false ->
  stats_after Date_parse st userEmail (Resolved (RArray (pre ++ video :: post)))
  = stats_after Date_parse st userEmail (Resolved (RArray (pre ++ post))).
Proof.
  intro H. rewrite !stats_after_array.
  replace (userVideos userEmail (pre ++ video :: post))
    with (userVideos userEmail (pre ++ post)); [reflexivity|].
  unfold userVideos. rewrite !filter_app. simpl. now rewrite H.
Qed.

(** A record that names no uploader, neither at the top level nor nested,
    belongs to nobody: it is filtered out for every user e-mail, the empty
    one included, and the stats are those of the feed without it. *)
Theorem anonymous_records_are_nobodys (st : DashState) (userEmail : string)
  (pre post : list Video) (video : Video) :
  uploader_email video = None ->
  uploader_email_nested video = None ->
  isUserVideo userEmail video = false /\
  stats_after Date_parse st userEmail (Resolved (RArray (pre ++ video :: post)))
  = stats_after Date_parse st userEmail (Resolved (RArray (pre ++ post))).
Proof.
  intros Ht Hn.
  assert (H : isUserVideo userEmail video = false)
    by (unfold isUserVideo; rewrite Ht, Hn; reflexivity).
  split; [exact H|].
  rewrite !stats_after_array.
  replace (userVideos userEmail (pre ++ video :: post))
    with (userVideos userEmail (pre ++ post)); [reflexivity|].
  unfold userVideos. rewrite !filter_app. simpl. now rewrite H.
Qed.

End MorePipelineFacts.

(** * Further properties of [Dashboard] *)

Section MoreDashboardFacts.
Variable Date_parse : string -> Js.number.

Lemma state_after_resolved (st : DashState) (userEmail : string) (r : Response) :
  state (run Date_parse (started st userEmail) [Settle (Resolved r)]) =
  {| st_loading := false; st_error := None;
     st_stats := stats_after Date_parse st userEmail (Resolved r) |}.
Proof.
  destruct r; try reflexivity.
  unfold stats_after, run, started, perform; simpl.
  unfold fetchDashboardData_resume, fetch_try; simpl.
  destruct (0 <? Z.of_nat (List.length (userVideos userEmail videos)));
    reflexivity.
Qed.

(** Each fetch computes the stats afresh: what the component held before
    has no part in what it holds once the fetch has settled. *)
Theorem stats_do_not_accumulate (st st' : DashState) (userEmail : string)
  (o : Outcome) :
  stats_after Date_parse st userEmail o = stats_after Date_parse st' userEmail o.
Proof.
  destruct o as [r|e]; [|reflexivity].
  destruct r; try reflexivity.
  now rewrite !stats_after_array.
Qed.

(** The spinner is up while the fetch is in flight and comes down however
    the promise settles: a rejection shows the alert with its message, any
    resolved value shows the dashboard home with the stats of the fetch and
    never an alert, whatever error the component held before. *)
Theorem settling_ends_the_spinner (st : DashState) (userEmail : string)
  (u : option User) (o : Outcome) :
  Dashboard_render true u (state (started st userEmail)) = VSpinner /\
  Dashboard_render true u
    (state (run Date_parse (started st userEmail) [Settle o])) =
  match o with
  | Rejected fetchError => VAlert (errorMessage fetchError)
  | Resolved _ => VHome u (stats_after Date_parse st userEmail o)
  end.
Proof.
  split; [reflexivity|].
  destruct o as [r|e].
  - now rewrite state_after_resolved.
  - assert (Hne := errorMessage_not_empty e).
    unfold run, started, perform, step, Dashboard_render; simpl.
    destruct (errorMessage e); [congruence|reflexivity].
Qed.



(** The effect starts a fetch exactly on the main dashboard with a user
    whose e-mail is a non-empty string. *)
Theorem fetch_started_iff (isMainDashboard : bool) (u : option User)
  (st : DashState) :
  effect (useEffect_body isMainDashboard u st) <> None <->
  isMainDashboard = true /\ Js.truthy_str (user_email_opt u) = true.
Proof.
  unfold useEffect_body.
  destruct isMainDashboard, (user_email_opt u) as [[|c s]|]; simpl;
    split; intros H; try discriminate; auto; try (now destruct H);
    try (destruct H; discriminate); now contradict H.
Qed.

End MoreDashboardFacts.

(** * Further properties of [PrivateRoute] *)

Section MorePrivateRouteFacts.
Context {Location Node : Type}.

(** The route never lets its children through without a user: whatever the
    history of renders and the loading flag, with [user] null it shows the
    spinner or sends to [/login]. *)
Theorem no_children_without_user (history : list AuthContext)
  (ctx : AuthContext) (location : Location) (children : Node) :
  user ctx = None ->
  let out := PrivateRoute.render_after history ctx location children in
  (forall anything, out <> PrivateRoute.Children anything) /\
  (out = PrivateRoute.Spinner \/
   out = PrivateRoute.Navigate "/login" location true).
Proof.
  intros Hu out. subst out.
  unfold PrivateRoute.render_after, PrivateRoute.render. rewrite Hu.
  destruct (loading ctx && negb _); split; auto; intros; discriminate.
Qed.

(** Auth is processed once: after a render that saw [loading] false the
    spinner never comes back, even while the provider is loading again; the
    user alone decides between the redirect and the children. *)
Theorem spinner_never_returns (history : list AuthContext)
  (earlier ctx : AuthContext) (location : Location) (children : Node) :
  In earlier history -> loading earlier = false ->
  PrivateRoute.render_after history ctx location children =
  match user ctx with
  | None => PrivateRoute.Navigate "/login" location true
  | Some _ => PrivateRoute.Children children
  end.
Proof.
  intros Hin Hl.
  unfold PrivateRoute.render_after, PrivateRoute.render.
  destruct (authChecked_history history) as [-> _].
  replace (existsb (fun c => negb (loading c)) history) with true.
  - now rewrite andb_false_r.
  - symmetry. apply existsb_exists. exists earlier. now rewrite Hl.
Qed.

End MorePrivateRouteFacts.

(** * Properties of [DashboardHome] and [VideoCard] *)

Lemma StronglySorted_map {A B : Type} (R : B -> B -> Prop) (f : A -> B)
  (l : list A) :
  StronglySorted (fun a b => R (f a) (f b)) l -> StronglySorted R (map f l).
Proof.
  induction 1 as [|a l Hs IH Ha]; simpl; constructor; auto.
  apply Forall_map. exact Ha.
Qed.

Lemma split_first_no_sep (sep : ascii) (s : string) :
  forall pre post, split_first sep s <> (pre ++ String sep post)%string.
Proof.
  induction s as [|c s IH]; intros [|p pre] post; simpl; try discriminate.
  - destruct (Ascii.eqb_spec c sep) as [->|Hc]; [discriminate|].
    intro H. injection H as H _. now contradict Hc.
  - destruct (Ascii.eqb c sep); [discriminate|].
    intro H. injection H as _ H. now apply IH in H.
Qed.

Lemma or_string_not_empty (a : option string) (b : string) :
  b <> "" -> or_string a b <> "".
Proof. intro Hb. destruct a as [[|c s]|]; simpl; auto. discriminate. Qed.

(** The welcome line always names somebody: the name is never empty, it is
    "Creator" when nobody is signed in or when the user has neither a display
    name nor an e-mail, and a display name that is empty or starts with a
    space gives way to what the e-mail has in front of its [@]. *)
Theorem welcomeName_never_empty (u : option User) :
  welcomeName u <> "" /\
  (user_displayName_opt u = None -> user_email_opt u = None ->
   welcomeName u = "Creator") /\
  (forall rest,
     user_displayName_opt u = Some "" \/
     user_displayName_opt u = Some (String " " rest) ->
     welcomeName u = or_string (opt_split_first "@" (user_email_opt u)) "Creator").
Proof.
  unfold welcomeName. repeat split.
  - apply or_string_not_empty, or_string_not_empty. discriminate.
  - intros -> ->. reflexivity.
  - intros rest [-> | ->]; reflexivity.
Qed.

(** A display name contributes its first word only: the name taken from it
    holds no space. *)
Theorem welcomeName_first_word (u : option User) (d : string) :
  user_displayName_opt u = Some d ->
  split_first " " d <> "" ->
  welcomeName u = split_first " " d /\
  forall pre post, welcomeName u <> (pre ++ String " " post)%string.
Proof.
  intros Hd Hne. unfold welcomeName. rewrite Hd. simpl.
  destruct (split_first " " d) as [|c s] eqn:E; [congruence|]. simpl.
  split; [reflexivity|]. rewrite <- E. apply split_first_no_sep.
Qed.

Section PresentationFacts.
Variable formatRelativeTime : string -> string.
Variable Date_parse : string -> Js.number.

Lemma storageUsed_after (st : DashState) (userEmail : string) (o : Outcome) :
  storageUsed (stats_after Date_parse st userEmail o) = 0 \/
  storageUsed (stats_after Date_parse st userEmail o) = 25.
Proof.
  destruct o as [r|e]; [|now left].
  destruct r; try (now left).
  rewrite stats_after_array.
  destruct (userVideos userEmail videos); [now left|now right].
Qed.

(** With the stats of any fetch the storage bar is green: the placeholder
    values stay under the first threshold of [getStorageColor]. *)
Theorem storage_bar_is_green (st : DashState) (userEmail : string)
  (u : option User) (o : Outcome) :
  home_storageColor
    (DashboardHome formatRelativeTime u (stats_after Date_parse st userEmail o))
  = "green".
Proof.
  unfold DashboardHome; simpl.
  destruct (storageUsed_after st userEmail o) as [-> | ->]; reflexivity.
Qed.

(** [getStorageColor] grades the percentage in three bands that cover every
    number and never step back as the percentage grows: green under 50,
    yellow from 50 up to 80, red from 80 on, negative and over-100 values
    included. *)
Theorem getStorageColor_bands (p q : Z) :
  (getStorageColor p = "green" <-> p < 50) /\
  (getStorageColor p = "yellow" <-> 50 <= p < 80) /\
  (getStorageColor p = "red" <-> 80 <= p) /\
  (p <= q -> getStorageColor p = "red" -> getStorageColor q = "red") /\
  (p <= q -> getStorageColor q = "green" -> getStorageColor p = "green").
Proof.
  unfold getStorageColor.
  destruct (Z.ltb_spec p 50), (Z.ltb_spec p 80), (Z.ltb_spec q 50),
    (Z.ltb_spec q 80);
    repeat split; intros; try discriminate; try lia; try reflexivity.
Qed.

Lemma home_after_array (st : DashState) (userEmail : string) (u : option User)
  (allVideos : list Video) :
  let stats := stats_after Date_parse st userEmail (Resolved (RArray allVideos)) in
  let home := DashboardHome formatRelativeTime u stats in
  match userVideos userEmail allVideos with
  | [] =>
      home_recent home = RecentPlaceholder /\
      home_popular home = PopularMessage true /\
      home_viewAll home = false /\
      home_analyticsButton home = false /\
      home_quickAnalytics home = false
  | _ :: _ =>
      home_recent home =
        RecentCards (map (fun v => VideoCard formatRelativeTime v Recent)
                       (recentVideos stats)) /\
      home_popular home =
        PopularCards (map (fun v => VideoCard formatRelativeTime v Popular)
                        (popularVideos stats)) /\
      home_viewAll home = true /\
      home_analyticsButton home = true /\
      home_quickAnalytics home = true
  end.
Proof.
  intros stats home.
  destruct (listed_lengths_aux Date_parse st userEmail allVideos) as (Hr & Hp & Hn).
  fold stats in Hr, Hp, Hn.
  subst home. unfold DashboardHome; simpl.
  rewrite Hr, Hp, Hn.
  destruct (userVideos userEmail allVideos) as [|v l]; simpl.
  - repeat split.
  - destruct l as [|v' l]; simpl; repeat split.
Qed.

End PresentationFacts.

Lemma StronglySorted_weaken {A : Type} (R R' : A -> A -> Prop) (l : list A) :
  (forall x y, R x y -> R' x y) -> StronglySorted R l -> StronglySorted R' l.
Proof.
  intros HR. induction 1 as [|a l Hs IH Ha]; constructor; auto.
  eapply Forall_impl; [|exact Ha]. auto.
Qed.

Section HomeFacts.
Variable formatRelativeTime : string -> string.
Variable Date_parse : string -> Js.number.

(** After any fetch the home is in one of two states.  Without videos of the
    user: the upload placeholder, the popular message hidden, no buttons and
    no analytics.  With videos: both lists as cards, neither of them empty,
    with the buttons and the analytics.  The visible "No popular videos"
    message and an empty grid never come up. *)
Theorem home_shows_cards_or_placeholder (st : DashState) (userEmail : string)
  (u : option User) (o : Outcome) :
  let stats := stats_after Date_parse st userEmail o in
  let home := DashboardHome formatRelativeTime u stats in
  (totalVideos stats = 0 /\
   home_recent home = RecentPlaceholder /\
   home_popular home = PopularMessage true /\
   home_viewAll home = false /\
   home_analyticsButton home = false /\
   home_quickAnalytics home = false)
  \/
  (0 < totalVideos stats /\
   recentVideos stats <> [] /\
   popularVideos stats <> [] /\
   home_recent home =
     RecentCards (map (fun v => VideoCard formatRelativeTime v Recent)
                    (recentVideos stats)) /\
   home_popular home =
     PopularCards (map (fun v => VideoCard formatRelativeTime v Popular)
                     (popularVideos stats)) /\
   home_viewAll home = true /\
   home_analyticsButton home = true /\
   home_quickAnalytics home = true).
Proof.
  intros stats home.
  destruct o as [r|e]; [|left; repeat split].
  destruct r; try solve [left; repeat split].
  generalize (home_after_array formatRelativeTime Date_parse st userEmail u videos).
  destruct (listed_lengths_aux Date_parse st userEmail videos) as (Hr & Hp & Hn).
  fold stats in Hr, Hp, Hn. fold stats. fold home. cbv zeta.
  destruct (userVideos userEmail videos) as [|v l]; simpl in Hr, Hp, Hn.
  - intros (H1 & H2 & H3 & H4 & H5). left. repeat split; auto.
  - intros (H1 & H2 & H3 & H4 & H5). right.
    repeat split; auto; try lia.
    + intro E. rewrite E in Hr. discriminate Hr.
    + intro E. rewrite E in Hp. discriminate Hp.
Qed.

(** The popular cards come with the badge, at most two of them, and the
    views they show never increase from one card to the next. *)
Theorem popular_cards_descend (st : DashState) (userEmail : string)
  (u : option User) (allVideos : list Video) (cards : list Card) :
  home_popular
    (DashboardHome formatRelativeTime u
       (stats_after Date_parse st userEmail (Resolved (RArray allVideos))))
  = PopularCards cards ->
  StronglySorted (fun a b => card_views b <= card_views a) cards /\
  Forall (fun c => card_badge c = true) cards /\
  (List.length cards <= 2)%nat.
Proof.
  generalize (home_after_array formatRelativeTime Date_parse st userEmail u allVideos).
  cbv zeta. destruct (userVideos userEmail allVideos) as [|v l] eqn:E.
  - intros (_ & -> & _). discriminate.
  - intros (_ & -> & _) H. injection H as <-.
    rewrite popularVideos_after, E.
    repeat split.
    + apply StronglySorted_map, StronglySorted_firstn.
      eapply StronglySorted_weaken; [|apply sortedByViews_sorted].
      intros x y Hxy. simpl. now rewrite !or_zero_field.
    + apply Forall_map, Forall_forall. reflexivity.
    + rewrite length_map. apply firstn_le_length.
Qed.

End HomeFacts.

(** * The further properties at concrete inputs *)

Lemma listed_videos_are_the_users_example :
  In february
    (recentVideos (stats_after ISO.Date_parse initialState "a@x.com"
                     (Resolved (RArray exampleFeed)))) /\
  In february exampleFeed /\ isUserVideo "a@x.com" february = true.
Proof.
  assert (H : In february
                (recentVideos (stats_after ISO.Date_parse initialState "a@x.com"
                                 (Resolved (RArray exampleFeed)))))
    by (vm_compute; auto).
  split; [exact H|].
  exact (listed_videos_are_the_users ISO.Date_parse initialState "a@x.com"
           exampleFeed february (or_introl H)).
Defined.

Lemma recentVideos_dominate_the_rest_example :
  Spec.dated ISO.Date_parse (userVideos "a@x.com" (anonymousVideo :: exampleFeed)) /\
  exists rest,
    Permutation
      (recentVideos (stats_after ISO.Date_parse initialState "a@x.com"
                       (Resolved (RArray (anonymousVideo :: exampleFeed))))
       ++ rest)
      (userVideos "a@x.com" (anonymousVideo :: exampleFeed)) /\
    forall shown left_out,
      In shown (recentVideos (stats_after ISO.Date_parse initialState "a@x.com"
                                (Resolved (RArray (anonymousVideo :: exampleFeed))))) ->
      In left_out rest ->
      Spec.date_desc ISO.Date_parse shown left_out.
Proof.
  assert (H : Spec.dated ISO.Date_parse
                (userVideos "a@x.com" (anonymousVideo :: exampleFeed))).
  { apply Forall_forall. intros v Hin. vm_compute in Hin.
    destruct Hin as [<-|[<-|[]]]; vm_compute; discriminate. }
  split; [exact H|].
  exact (recentVideos_dominate_the_rest ISO.Date_parse initialState "a@x.com"
           (anonymousVideo :: exampleFeed) H).
Defined.

Lemma popularVideos_keep_feed_order_example :
  Sorted Spec.views_desc (userVideos "a@x.com" [february; january]) /\
  popularVideos (stats_after ISO.Date_parse initialState "a@x.com"
                   (Resolved (RArray [february; january])))
  = firstn 2 (userVideos "a@x.com" [february; january]).
Proof.
  assert (H : Sorted Spec.views_desc (userVideos "a@x.com" [february; january])).
  { change (userVideos "a@x.com" [february; january]) with [february; january].
    repeat constructor. unfold Spec.views_desc. simpl. lia. }
  split; [exact H|].
  exact (popularVideos_keep_feed_order ISO.Date_parse initialState "a@x.com"
           [february; january] H).
Defined.


Lemma stats_ignore_case_example :
  Spec.eq_ignore_case "a@x.com" "A@X.COM" = true /\
  stats_after ISO.Date_parse initialState "a@x.com" (Resolved (RArray exampleFeed))
  = stats_after ISO.Date_parse initialState "A@X.COM" (Resolved (RArray exampleFeed)).
Proof.
  split; [reflexivity|].
  apply (stats_ignore_case_of_user_email ISO.Date_parse initialState
           "a@x.com" "A@X.COM"). reflexivity.
Defined.

Lemma other_uploaders_are_ignored_example :
  isUserVideo "a@x.com" nestedOnly = true /\
  isUserVideo "zoe@x.com" nestedOnly = false /\
  stats_after ISO.Date_parse initialState "zoe@x.com"
    (Resolved (RArray ([january] ++ nestedOnly :: [february])))
  = stats_after ISO.Date_parse initialState "zoe@x.com"
      (Resolved (RArray ([january] ++ [february]))).
Proof.
  split; [reflexivity|]. split; [reflexivity|].
  apply (other_uploaders_are_ignored ISO.Date_parse initialState "zoe@x.com"
           [january] [february] nestedOnly). reflexivity.
Defined.

Lemma anonymous_records_example :
  uploader_email anonymousVideo = None /\
  uploader_email_nested anonymousVideo = None /\
  isUserVideo "" anonymousVideo = false /\
  stats_after ISO.Date_parse initialState ""
    (Resolved (RArray ([] ++ anonymousVideo :: exampleFeed)))
  = stats_after ISO.Date_parse initialState ""
      (Resolved (RArray ([] ++ exampleFeed))).
Proof.
  split; [reflexivity|]. split; [reflexivity|].
  apply (anonymous_records_are_nobodys ISO.Date_parse initialState ""
           [] exampleFeed anonymousVideo); reflexivity.
Defined.


Lemma no_children_without_user_example :
  user {| user := None; loading := false |} = None /\
  forall anything : nat,
    PrivateRoute.render_after [] {| user := None; loading := false |} "/dashboard" 1%nat
    <> PrivateRoute.Children anything.
Proof.
  split; [reflexivity|].
  destruct (@no_children_without_user string nat []
              {| user := None; loading := false |} "/dashboard" 1%nat)
    as [H _]; [reflexivity|exact H].
Defined.

Lemma spinner_never_returns_example :
  In {| user := None; loading := false |} [{| user := None; loading := false |}] /\
  PrivateRoute.render_after [{| user := None; loading := false |}]
    {| user := Some alice; loading := true |} "/dashboard" 1%nat
  = PrivateRoute.Children 1%nat.
Proof.
  split; [left; reflexivity|].
  apply (@spinner_never_returns string nat [{| user := None; loading := false |}]
           {| user := None; loading := false |});
    [left; reflexivity|reflexivity].
Defined.

Lemma welcomeName_first_word_example :
  user_displayName_opt (Some alice) = Some "Alice Liddell" /\
  split_first " " "Alice Liddell" <> "" /\
  welcomeName (Some alice) = "Alice".
Proof.
  split; [reflexivity|]. split; [discriminate|].
  destruct (welcomeName_first_word (Some alice) "Alice Liddell") as [H _];
    [reflexivity|discriminate|exact H].
Defined.

Lemma popular_cards_descend_example :
  home_popular
    (DashboardHome (fun s => s) None
       (stats_after ISO.Date_parse initialState "a@x.com"
          (Resolved (RArray exampleFeed))))
  = PopularCards (map (fun v => VideoCard (fun s => s) v Popular) [february; january]) /\
  StronglySorted (fun a b => card_views b <= card_views a)
    (map (fun v => VideoCard (fun s => s) v Popular) [february; january]).
Proof.
  split; [reflexivity|].
  destruct (popular_cards_descend (fun s => s) ISO.Date_parse initialState "a@x.com"
              None exampleFeed
              (map (fun v => VideoCard (fun s => s) v Popular) [february; january]))
    as (H & _ & _); [reflexivity|exact H].
Defined.
